(** * backup_github_repos.py: a shallow embedding and its properties

    The script lists the repositories of a GitHub account, asks the operator
    for confirmation and then clones or updates every repository below
    [public_repos/] or [private_repos/], running [git fsck] after a clone.

    The embedding keeps the shape of the Python source.  Everything the
    script does to the outside world (printing, logging, directory creation,
    starting git) is an [event]; the answers of the outside world come from
    an [OS] interface whose state is threaded through a small state and
    exception monad. *)

From Stdlib Require Import String Ascii List ZArith Bool Lia Arith.
From Stdlib Require Import Sorting.Sorted Sorting.Permutation.
Import ListNotations.
Open Scope string_scope.

Set Implicit Arguments.

(** ** Python strings

    A [str] is modelled by [string]; the characters that matter to the
    script (the letters of "yes", the scheme marker "ssh://" and the path
    separator) are ASCII. *)

Module PyStr.

(** [str.lower] on one character: 'A'..'Z' go to 'a'..'z'. *)
Definition lower_ascii (c : ascii) : ascii :=
  let n := nat_of_ascii c in
  if (65 <=? n)%nat && (n <=? 90)%nat then ascii_of_nat (n + 32) else c.

(** [s.lower()] *)
Fixpoint lower (s : string) : string :=
  match s with
  | EmptyString => EmptyString
  | String c s' => String (lower_ascii c) (lower s')
  end.

(** [needle in s]: substring test. *)
Fixpoint contains (needle s : string) : bool :=
  if String.prefix needle s then true
  else match s with
       | EmptyString => false
       | String _ s' => contains needle s'
       end.

(** [s.startswith("/")] *)
Definition startswith_sep (s : string) : bool :=
  match s with
  | String c _ => Ascii.eqb c "/"
  | EmptyString => false
  end.

(** [s.endswith("/")] *)
Fixpoint endswith_sep (s : string) : bool :=
  match s with
  | EmptyString => false
  | String c EmptyString => Ascii.eqb c "/"
  | String _ s' => endswith_sep s'
  end.

(** [os.path.join(a, b)] for two components, as in [posixpath.join]: an
    absolute [b] replaces [a]; otherwise the components are glued with one
    separator, which is left out when [a] is empty or already ends in
    one. *)
Definition path_join (a b : string) : string :=
  if startswith_sep b then b
  else if String.eqb a "" || endswith_sep a then a ++ b
  else a ++ "/" ++ b.

End PyStr.

(** ** Data model *)

(** The attributes of a PyGithub [Repository] that the script reads.
    [updated_at] is a point in time; only its order matters. *)
Record Repository := {
  name : string;
  clone_url : string;
  ssh_url : string;
  private : bool;
  updated_at : Z
}.

(** ** The builtin [sorted]

    [sorted(xs, key=k, reverse=r)] is a stable sort.  With [reverse=True]
    CPython reverses the list, sorts it stably in ascending order and
    reverses the result, which keeps elements with equal keys in their
    original order. *)

Section Sorted.
Variable A : Type.
Variable key : A -> Z.

(** Insert [x] in front of the first element whose key is not smaller. *)
Fixpoint insert_asc (x : A) (l : list A) : list A :=
  match l with
  | [] => [x]
  | y :: l' => if (key y <? key x)%Z then y :: insert_asc x l' else x :: l
  end.

(** Stable ascending sort: the elements are inserted from the right. *)
Definition sort_asc (l : list A) : list A := fold_right insert_asc [] l.

Definition sorted (reverse : bool) (l : list A) : list A :=
  if reverse then rev (sort_asc (rev l)) else sort_asc l.
End Sorted.

(** ** Exceptions, events and the outside world *)

(** The exception classes that can travel through the script. *)
Inductive exn :=
| CalledProcessError (returncode : Z) (output : string)
    (* subprocess: the command ran and exited with a non-zero status *)
| OSError (strerror : string)
    (* a command could not be started, a directory could not be made *)
| RequestException (msg : string)      (* requests: transport failure *)
| GithubException (msg : string)       (* PyGithub: the API refused *)
| AttributeError (msg : string)
| ValueError (msg : string)
| OverflowError (msg : string)
| UnicodeDecodeError (object : string)
    (* captured output that is not text in the encoding of the locale *)
| SystemExit (code : Z).

Inductive level := INFO | ERROR.

(** The delay between repositories: [int(sys.argv[2])], or the literal
    [1.0] when the argument is absent. *)
Inductive seconds :=
| IntSeconds (n : Z)
| DefaultSeconds.

(** A child process that ran to its end: its exit status and the bytes
    captured from its standard output and standard error. *)
Record FinishedProcess := {
  exit_code : Z;
  stdout_bytes : string;
  stderr_bytes : string
}.

(** What [subprocess.run] hands back ([capture_output=True, text=True]):
    the exit status and the captured output as text. *)
Record CompletedProcess := {
  returncode : Z;
  stdout : string;
  stderr : string
}.

(** What the script does to the outside world, in order, each call with
    the answer it got. *)
Inductive event :=
| Print (line : string)
| Log (lv : level) (msg : string)
| Input (prompt reply : string)
| PathExists (path : string) (answer : bool)
| Makedirs (path : string) (raised : option exn)
| Run (argv : list string) (result : CompletedProcess + exn)
| Sleep (s : seconds).

(** The operating system as the script sees it.  [Env] is the state of the
    machine (files, programs installed, the network behind git). *)
Class OS (Env : Type) := {
  (** [os.path.exists] *)
  path_exists : Env -> string -> bool;
  (** [os.makedirs(path, exist_ok=True)]: [None] when it returns. *)
  makedirs : Env -> string -> option exn * Env;
  (** Starting a command and waiting for it: the finished process, or the
      exception raised when it could not be run at all. *)
  spawn : Env -> list string -> (FinishedProcess + exn) * Env;
  (** Reading captured bytes as text in the encoding of the locale, with
      the line ends translated: [None] when the bytes are not text in that
      encoding. *)
  decode : string -> option string
}.

(** What the script takes from the Python runtime and from PyGithub
    without the source saying how it is computed. *)
Class Runtime := {
  (** [str(repo.updated_at)] *)
  str_datetime : Z -> string;
  (** [int(s)]: [None] stands for [ValueError]. *)
  int_of_str : string -> option Z;
  (** Whether the PyGithub class [Github] has an attribute
      [GithubException]: the second [except] clause of [get_repositories]
      looks it up when the first clause did not match. *)
  Github_has_GithubException : bool
}.

(** The first number of seconds that does not fit the 64-bit count of
    nanoseconds of [time.sleep]. *)
Definition sleep_limit : Z := 9223372037.

(** ** The monad of the script: state, exceptions and a trace *)

Section Script.
Context {Env : Type} {os : OS Env} {py : Runtime}.

Record Res (A : Type) := mkRes {
  outcome : A + exn;
  final : Env;
  emitted : list event
}.

Definition M (A : Type) : Type := Env -> Res A.

Definition ret {A} (a : A) : M A := fun env => mkRes (inl a) env [].

Definition raise {A} (e : exn) : M A := fun env => mkRes (inr e) env [].

Definition bind {A B} (m : M A) (k : A -> M B) : M B :=
  fun env =>
    match m env with
    | mkRes (inl a) env1 t1 =>
        match k a env1 with
        | mkRes o env2 t2 => mkRes o env2 (t1 ++ t2)
        end
    | mkRes (inr e) env1 t1 => mkRes (inr e) env1 t1
    end.

(** [try: body except ...: ...].  The clauses are a partial function: it
    answers [None] for an exception that no clause matches, which is then
    raised again. *)
Definition try_except {A} (body : M A) (clauses : exn -> option (M A)) : M A :=
  fun env =>
    match body env with
    | mkRes (inl a) env1 t1 => mkRes (inl a) env1 t1
    | mkRes (inr e) env1 t1 =>
        match clauses e with
        | Some h =>
            match h env1 with
            | mkRes o env2 t2 => mkRes o env2 (t1 ++ t2)
            end
        | None => mkRes (inr e) env1 t1
        end
    end.

Definition emit (ev : event) : M unit := fun env => mkRes (inl tt) env [ev].

Notation "x <- m ;; k" := (bind m (fun x => k))
  (at level 61, m at next level, right associativity).
Notation "m ;; k" := (bind m (fun _ => k))
  (at level 61, right associativity).

(** [for x in xs: body(x)] *)
Fixpoint for_each {A} (xs : list A) (body : A -> M unit) : M unit :=
  match xs with
  | [] => ret tt
  | x :: xs' => body x ;; for_each xs' body
  end.

(** *** Library calls *)

Definition print (line : string) : M unit := emit (Print line).
Definition logging_info (msg : string) : M unit := emit (Log INFO msg).
Definition logging_error (msg : string) : M unit := emit (Log ERROR msg).
Definition sys_exit {A} (code : Z) : M A := raise (SystemExit code).

(** [time.sleep(s)].  An integer is turned into a count of nanoseconds in 64
    bits, which raises [OverflowError] from [sleep_limit] on; a negative
    delay raises [ValueError]. *)
Definition time_sleep (s : seconds) : M unit :=
  match s with
  | IntSeconds n =>
      if (sleep_limit <=? Z.abs n)%Z then
        raise (OverflowError "timestamp too large to convert to C _PyTime_t")
      else if (n <? 0)%Z then
        raise (ValueError "sleep length must be non-negative")
      else emit (Sleep s)
  | DefaultSeconds => emit (Sleep s)
  end.

(** [input(prompt)]; [reply] is the line the operator types. *)
Definition input (reply : string) (prompt : string) : M string :=
  emit (Input prompt reply) ;; ret reply.

Definition os_path_exists (path : string) : M bool :=
  fun env =>
    let there := path_exists env path in
    mkRes (inl there) env [PathExists path there].

Definition os_makedirs (path : string) : M unit :=
  fun env =>
    let '(raised, env') := makedirs env path in
    mkRes (match raised with None => inl tt | Some e => inr e end)
          env' [Makedirs path raised].

(** What [text=True] makes of the answer of the operating system: the
    captured bytes of a finished process are decoded, standard output
    first, and bytes that do not decode raise [UnicodeDecodeError]. *)
Definition completed (answer : FinishedProcess + exn) : CompletedProcess + exn :=
  match answer with
  | inl p =>
      match decode (stdout_bytes p) with
      | None => inr (UnicodeDecodeError (stdout_bytes p))
      | Some out =>
          match decode (stderr_bytes p) with
          | None => inr (UnicodeDecodeError (stderr_bytes p))
          | Some err =>
              inl {| returncode := exit_code p; stdout := out; stderr := err |}
          end
      end
  | inr e => inr e
  end.

(** [subprocess.run(argv, check=True, capture_output=True, text=True)]:
    the output is decoded while the process is waited for, then a non-zero
    exit status becomes [CalledProcessError], whose [output] is the
    captured standard output. *)
Definition subprocess_run (argv : list string) : M CompletedProcess :=
  fun env =>
    let '(answer, env') := spawn env argv in
    mkRes (match completed answer with
           | inl cp => if (returncode cp =? 0)%Z then inl cp
                       else inr (CalledProcessError (returncode cp) (stdout cp))
           | inr e => inr e
           end)
          env' [Run argv (completed answer)].

(** *** class GithubBackup *)

Record GithubBackup := {
  github : string;                 (* Github(token) *)
  rate_limit_seconds : seconds
}.

(** [listing] is what iterating [self.github.get_user().get_repos()]
    gives: the repositories in the order of the service, or the exception
    raised on the way. *)
Definition get_repositories (self : GithubBackup)
    (listing : list Repository + exn) : M (list Repository) :=
  try_except
    (repos <- (match listing with inl l => ret l | inr e => raise e end) ;;
     ret (sorted updated_at true repos))
    (fun e =>
       match e with
       | RequestException msg =>
           Some (logging_error ("Network error: " ++ msg) ;; sys_exit 1)
       | _ =>
           if Github_has_GithubException then
             match e with
             | GithubException msg =>
                 Some (logging_error ("GitHub API error: " ++ msg) ;; sys_exit 1)
             | _ => None
             end
           else
             Some (raise (AttributeError
               "type object 'Github' has no attribute 'GithubException'"))
       end).

Definition display_line (repo : Repository) : string :=
  let repo_type := if private repo then "Private" else "Public" in
  repo_type ++ ": " ++ name repo ++ " (Last updated: "
    ++ str_datetime (updated_at repo) ++ ")".

Definition display_repositories (self : GithubBackup)
    (repos : list Repository) : M unit :=
  print "Repositories:" ;;
  for_each repos (fun repo => print (display_line repo)).

Definition fsck_argv (target_dir : string) : list string :=
  ["git"; "-C"; target_dir; "fsck"].

Definition verify_repository (self : GithubBackup) (target_dir : string) : M bool :=
  try_except
    (result <- subprocess_run (fsck_argv target_dir) ;;
     logging_info ("Backup verification for " ++ target_dir ++ " successful") ;;
     ret true)
    (fun e =>
       match e with
       | CalledProcessError _ output =>
           Some (logging_error ("Backup verification for " ++ target_dir
                                  ++ " failed: " ++ output) ;;
                 ret false)
       | _ => None
       end).

Definition repo_url (repo : Repository) : string :=
  if PyStr.contains "ssh://" (ssh_url repo) then ssh_url repo else clone_url repo.

Definition target_dir_of (repo : Repository) (backup_dir : string) : string :=
  PyStr.path_join backup_dir (name repo).

Definition fetch_argv (target_dir : string) : list string :=
  ["git"; "-C"; target_dir; "fetch"; "--all"; "--prune"].

Definition merge_argv (target_dir : string) : list string :=
  ["git"; "-C"; target_dir; "merge"].

Definition clone_argv (url target_dir : string) : list string :=
  ["git"; "lfs"; "clone"; "--recursive"; "-c"; "submodule.recurse=true";
   url; target_dir].

Definition clone_or_update_repository (self : GithubBackup)
    (repo : Repository) (backup_dir : string) : M unit :=
  let repo_url := repo_url repo in
  let repo_name := name repo in
  let target_dir := target_dir_of repo backup_dir in
  there <- os_path_exists target_dir ;;
  if there : bool then
    logging_info ("Updating " ++ repo_name ++ " in " ++ backup_dir) ;;
    try_except
      (subprocess_run (fetch_argv target_dir) ;;
       subprocess_run (merge_argv target_dir) ;;
       logging_info ("Successfully updated " ++ repo_name ++ " in " ++ backup_dir))
      (fun e =>
         match e with
         | CalledProcessError _ output =>
             Some (logging_error ("Failed to update " ++ repo_name ++ " in "
                                    ++ backup_dir ++ ": " ++ output))
         | _ => None
         end) ;;
    ret tt
  else
    try_except
      (logging_info ("Cloning " ++ repo_name ++ " to " ++ backup_dir) ;;
       subprocess_run (clone_argv repo_url target_dir) ;;
       logging_info ("Successfully cloned " ++ repo_name ++ " to " ++ backup_dir))
      (fun e =>
         match e with
         | CalledProcessError _ output =>
             Some (logging_error ("Failed to clone " ++ repo_name ++ " to "
                                    ++ backup_dir ++ ": " ++ output))
         | _ => None
         end) ;;
    verify_repository self target_dir ;;
    ret tt.

(** ["public_repos" if repo.private is False else "private_repos"] *)
Definition backup_dir_of (repo : Repository) : string :=
  if negb (private repo) then "public_repos" else "private_repos".

(** [self.rate_limit_seconds > 0] *)
Definition positive (s : seconds) : bool :=
  match s with
  | IntSeconds n => (0 <? n)%Z
  | DefaultSeconds => true
  end.

(** The body of the loop of [backup_repositories]. *)
Definition backup_one (self : GithubBackup) (repo : Repository) : M unit :=
  let backup_dir := backup_dir_of repo in
  os_makedirs backup_dir ;;
  clone_or_update_repository self repo backup_dir ;;
  if positive (rate_limit_seconds self)
  then time_sleep (rate_limit_seconds self)
  else ret tt.

Definition confirm_prompt : string :=
  "Do you want to backup these repositories? (yes/no) ".

Definition backup_repositories (self : GithubBackup)
    (listing : list Repository + exn) (reply : string) : M unit :=
  repos <- get_repositories self listing ;;
  display_repositories self repos ;;
  confirm <- input reply confirm_prompt ;;
  if negb (String.eqb (PyStr.lower confirm) "yes") then
    print "Backup canceled."
  else
    for_each repos (backup_one self).

Definition usage : string :=
  "Usage: python backup_github_repos.py <GitHub Personal Access Token> [rate_limit_seconds]".

(** The [if __name__ == "__main__":] block. *)
Definition main (argv : list string)
    (listing : list Repository + exn) (reply : string) : M unit :=
  if (length argv <? 2)%nat then
    print usage ;; sys_exit 1
  else
    let token := nth 1 argv "" in
    rate_limit_seconds <-
      (if (3 <=? length argv)%nat then
         match int_of_str (nth 2 argv "") with
         | Some n => ret (IntSeconds n)
         | None => raise (ValueError "invalid literal for int() with base 10")
         end
       else ret DefaultSeconds) ;;
    let backup := {| github := token; rate_limit_seconds := rate_limit_seconds |} in
    backup_repositories backup listing reply.

(** The exit status of the interpreter: 0 when the script runs to its
    end, the argument of [sys.exit], and 1 after an exception that nobody
    caught. *)
Definition exit_status {A} (r : Res A) : Z :=
  match outcome r with
  | inl _ => 0
  | inr (SystemExit code) => code
  | inr _ => 1
  end.

End Script.

Arguments Res : clear implicits.
Arguments M : clear implicits.

(** ** Reading a trace *)

(** The commands started, in order. *)
Definition runs (t : list event) : list (list string) :=
  flat_map (fun ev => match ev with Run argv _ => [argv] | _ => [] end) t.

(** The paths tested with [os.path.exists]: one per repository whose
    synchronisation began. *)
Definition started (t : list event) : list string :=
  flat_map (fun ev => match ev with PathExists p _ => [p] | _ => [] end) t.

(** The directories the script asked to create. *)
Definition made (t : list event) : list string :=
  flat_map (fun ev => match ev with Makedirs p _ => [p] | _ => [] end) t.

(** The lines printed. *)
Definition printed (t : list event) : list string :=
  flat_map (fun ev => match ev with Print l => [l] | _ => [] end) t.

Definition is_clone (argv : list string) : bool :=
  String.eqb (nth 1 argv "") "lfs" && String.eqb (nth 2 argv "") "clone".
Definition is_fetch (argv : list string) : bool :=
  String.eqb (nth 1 argv "") "-C" && String.eqb (nth 3 argv "") "fetch".
Definition is_merge (argv : list string) : bool :=
  String.eqb (nth 1 argv "") "-C" && String.eqb (nth 3 argv "") "merge".
Definition is_fsck (argv : list string) : bool :=
  String.eqb (nth 1 argv "") "-C" && String.eqb (nth 3 argv "") "fsck".

(** How many of the commands started satisfy [p]. *)
Definition count_runs (p : list string -> bool) (t : list event) : nat :=
  length (filter p (runs t)).


(** ** A small machine to run the script on

    The state is the list of paths that exist.  [git_installed] says
    whether starting git works at all, [behaviour] gives the exit status and
    the captured output of each git command; a successful clone makes its
    target directory.  The locale is plain ASCII. *)

(** Every byte is below 128. *)
Fixpoint ascii_only (bytes : string) : bool :=
  match bytes with
  | EmptyString => true
  | String c rest => (nat_of_ascii c <? 128)%nat && ascii_only rest
  end.

Definition machine_decode (bytes : string) : option string :=
  if ascii_only bytes then Some bytes else None.

Definition machine_exists (paths : list string) (p : string) : bool :=
  existsb (String.eqb p) paths.

Definition machine_spawn (git_installed : bool)
    (behaviour : list string -> Z * string)
    (paths : list string) (argv : list string)
    : (FinishedProcess + exn) * list string :=
  if git_installed then
    let '(rc, out) := behaviour argv in
    (inl {| exit_code := rc; stdout_bytes := out; stderr_bytes := "" |},
     if is_clone argv && (rc =? 0)%Z then nth 7 argv "" :: paths else paths)
  else (inr (OSError "No such file or directory: 'git'"), paths).

Definition Machine (git_installed : bool)
    (behaviour : list string -> Z * string) : OS (list string) := {|
  path_exists := machine_exists;
  makedirs := fun paths p => (None, p :: paths);
  spawn := machine_spawn git_installed behaviour;
  decode := machine_decode
|}.

(** Every git command succeeds. *)
Definition all_fine (argv : list string) : Z * string := (0%Z, "").

(** [git fetch] fails, the other commands succeed. *)
Definition fetch_fails (argv : list string) : Z * string :=
  if is_fetch argv then (1%Z, "fatal: unable to access remote") else (0%Z, "").

(** [git fetch] fails and what it wrote is not text in the locale: the
    message begins with byte 255. *)
Definition fetch_garbles (argv : list string) : Z * string :=
  if is_fetch argv then (1%Z, String "255"%char "fatal: unable to access remote")
  else (0%Z, "").

(** [git lfs clone] and then [git fsck] fail, as for a repository that
    cannot be reached. *)
Definition clone_fails (argv : list string) : Z * string :=
  if is_clone argv then (128%Z, "fatal: repository not found")
  else if is_fsck argv then (128%Z, "fatal: cannot change to directory")
  else (0%Z, "").

(** A runtime for the examples: dates print as their weekday, [int]
    reads one digit. *)
Definition sample_runtime : Runtime := {|
  str_datetime := fun t =>
    nth (Z.to_nat (t mod 7)) ["Thu"; "Fri"; "Sat"; "Sun"; "Mon"; "Tue"; "Wed"] "";
  int_of_str := fun s =>
    match s with
    | String c EmptyString =>
        let n := nat_of_ascii c in
        if (48 <=? n)%nat && (n <=? 57)%nat then Some (Z.of_nat (n - 48)) else None
    | _ => None
    end;
  Github_has_GithubException := false
|}.

Definition alpha : Repository := {|
  name := "alpha";
  clone_url := "https://github.com/octocat/alpha.git";
  ssh_url := "git@github.com:octocat/alpha.git";
  private := true;
  updated_at := 2
|}.

Definition beta : Repository := {|
  name := "beta";
  clone_url := "https://github.com/octocat/beta.git";
  ssh_url := "git@github.com:octocat/beta.git";
  private := false;
  updated_at := 1
|}.

Definition gamma : Repository := {|
  name := "gamma";
  clone_url := "https://git.example.org/octocat/gamma.git";
  ssh_url := "ssh://git@git.example.org/octocat/gamma.git";
  private := false;
  updated_at := 1
|}.

Definition no_delay : GithubBackup :=
  {| github := "token"; rate_limit_seconds := IntSeconds 0 |}.

(** The spellings of "yes" when case is ignored. *)
Definition yes_spellings : list string :=
  ["yes"; "yeS"; "yEs"; "yES"; "Yes"; "YeS"; "YEs"; "YES"].

(** [needle] occurs in [s]. *)
Definition occurs_in (needle s : string) : Prop :=
  exists pre post, s = pre ++ needle ++ post.


(** The call of [subprocess.run] came back, or raised the one exception the
    script has a clause for. *)
Definition returned_or_caught (r : CompletedProcess + exn) : bool :=
  match r with
  | inl _ => true
  | inr (CalledProcessError _ _) => true
  | inr _ => false
  end.



(** Both captured streams of a finished process are text. *)
Definition decodes {Env : Type} {os : OS Env} (p : FinishedProcess) : bool :=
  match decode (stdout_bytes p), decode (stderr_bytes p) with
  | Some _, Some _ => true
  | _, _ => false
  end.


(** The target directories of a listing, in the order of the run. *)
Definition targets (repos : list Repository) : list string :=
  map (fun repo => target_dir_of repo (backup_dir_of repo))
      (sorted updated_at true repos).

(** What a run emits up to the operator's answer: the table of the
    repositories and the question. *)
Definition announced {py : Runtime} (repos : list Repository)
    (reply : string) : list event :=
  Print "Repositories:"
    :: map (fun repo => Print (display_line repo)) (sorted updated_at true repos)
    ++ [Input confirm_prompt reply].

(** *** Readings that the code does not bear out

    Each is refuted further down on a concrete run, next to the statement
    that holds in its place. *)

(** Both commands of the update path are started whenever the target
    directory exists. *)
Definition update_always_merges {Env : Type} {os : OS Env}
    (self : GithubBackup) (repo : Repository) (backup_dir : string)
    (env : Env) : Prop :=
  let target_dir := target_dir_of repo backup_dir in
  let t := emitted (clone_or_update_repository self repo backup_dir env) in
  (path_exists env target_dir = false ->
   count_runs is_clone t = 1%nat /\
   count_runs is_fetch t = 0%nat /\ count_runs is_merge t = 0%nat) /\
  (path_exists env target_dir = true ->
   count_runs is_fetch t = 1%nat /\ count_runs is_merge t = 1%nat /\
   count_runs is_clone t = 0%nat).


(** A fetch that exits with a non-zero status is logged and the function
    returns, without merge. *)
Definition failed_fetch_is_logged {Env : Type} {os : OS Env}
    (self : GithubBackup) (repo : Repository) (backup_dir : string)
    (env : Env) : Prop :=
  let target_dir := target_dir_of repo backup_dir in
  let r := clone_or_update_repository self repo backup_dir env in
  path_exists env target_dir = true ->
  (exists p, fst (spawn env (fetch_argv target_dir)) = inl p /\
             exit_code p <> 0%Z) ->
  count_runs is_merge (emitted r) = 0%nat /\
  outcome r = inl tt /\
  exists msg, In (Log ERROR msg) (emitted r).

(** [verify_repository] always comes back with a boolean. *)
Definition verify_never_raises {Env : Type} {os : OS Env}
    (self : GithubBackup) (target_dir : string) (env : Env) : Prop :=
  exists b : bool, outcome (verify_repository self target_dir env) = inl b.

(** A confirmed run makes both category directories. *)
Definition makes_both_directories {Env : Type} {os : OS Env} {py : Runtime}
    (self : GithubBackup) (repos : list Repository) (reply : string)
    (env : Env) : Prop :=
  let r := backup_repositories self (inl repos) reply env in
  In reply yes_spellings ->
  In "public_repos" (made (emitted r)) /\ In "private_repos" (made (emitted r)).

(** *** More readings of a trace *)

(** The delays the script asked for. *)
Definition slept (t : list event) : list seconds :=
  flat_map (fun ev => match ev with Sleep s => [s] | _ => [] end) t.

(** The questions put to the operator. *)
Definition prompts (t : list event) : list string :=
  flat_map (fun ev => match ev with Input p _ => [p] | _ => [] end) t.



(** The messages logged at level ERROR. *)
Definition error_records (t : list event) : list string :=
  flat_map (fun ev => match ev with Log ERROR msg => [msg] | _ => [] end) t.

(** The commands that ended in [CalledProcessError]. *)
Definition caught_failures (t : list event) : list (list string) :=
  flat_map (fun ev =>
              match ev with
              | Run argv (inl cp) =>
                  if (returncode cp =? 0)%Z then [] else [argv]
              | Run argv (inr (CalledProcessError _ _)) => [argv]
              | _ => []
              end) t.

(** The four commands the script has for one repository. *)
Definition git_commands_of (repo : Repository) : list (list string) :=
  let target_dir := target_dir_of repo (backup_dir_of repo) in
  [clone_argv (repo_url repo) target_dir; fetch_argv target_dir;
   merge_argv target_dir; fsck_argv target_dir].

(** A machine on which no directory can be made. *)
Definition ReadOnly : OS (list string) := {|
  path_exists := machine_exists;
  makedirs := fun paths p => (Some (OSError "Read-only file system"), paths);
  spawn := machine_spawn true all_fine;
  decode := machine_decode
|}.

(** [delta] has the name and times of [beta] under another owner. *)
Definition delta : Repository := {|
  name := "beta";
  clone_url := "https://github.com/hubot/beta.git";
  ssh_url := "git@github.com:hubot/beta.git";
  private := false;
  updated_at := 3
|}.

(** [git merge] fails, the other commands succeed. *)
Definition merge_fails (argv : list string) : Z * string :=
  if is_merge argv then (1%Z, "fatal: Not possible to fast-forward") else (0%Z, "").

(** The script as started without a delay argument. *)
Definition default_delay : GithubBackup :=
  {| github := "token"; rate_limit_seconds := DefaultSeconds |}.

(** Every exception of a command in the trace is a [CalledProcessError]. *)
Definition nothing_uncaught (t : list event) : bool :=
  forallb (fun ev => match ev with
                     | Run _ r => returned_or_caught r
                     | _ => true
                     end) t.

(** Unfolds the script down to the calls of the operating system. *)
Ltac unfold_script :=
  cbv beta iota zeta delta
    [clone_or_update_repository verify_repository backup_one
     os_path_exists os_makedirs subprocess_run
     logging_info logging_error print time_sleep sys_exit input emit
     bind try_except ret raise outcome final emitted].

(** Splits on the answer of the next call of the operating system. *)
Ltac ask_os :=
  match goal with
  | |- context [match spawn ?e ?a with _ => _ end] =>
      let answer := fresh "answer" in
      let env' := fresh "env" in
      destruct (spawn e a) as [answer env']
  | |- context [completed ?answer] =>
      let cp := fresh "cp" in let ex := fresh "ex" in
      is_var answer; destruct (completed answer) as [cp|ex]
  | |- context [match makedirs ?e ?p with _ => _ end] =>
      let ex := fresh "ex" in
      let env' := fresh "env" in
      destruct (makedirs e p) as [[ex|] env']
  | |- context [if (returncode ?cp =? 0)%Z then _ else _] =>
      let E := fresh "Erc" in
      destruct (returncode cp =? 0)%Z eqn:E
  | |- context [match ?ex with CalledProcessError _ _ => _ | _ => _ end] =>
      is_var ex; destruct ex
  | |- context [if path_exists ?e ?p then _ else _] =>
      destruct (path_exists e p)
  | |- context [if positive ?s then _ else _] =>
      destruct (positive s)
  | |- context [match rate_limit_seconds ?self with _ => _ end] =>
      let n := fresh "n" in
      destruct (rate_limit_seconds self) as [n|]
  | |- context [if (sleep_limit <=? ?n)%Z then _ else _] =>
      destruct (sleep_limit <=? n)%Z
  | |- context [if (?n <? 0)%Z then _ else _] =>
      destruct (n <? 0)%Z
  end; cbv beta iota zeta; cbn [fst snd].

(** Goes through every course the script can take from here. *)
Ltac every_course := unfold_script; repeat ask_os.

(** * Properties *)

(** ** Strings *)

Module PyStrFacts.
Import PyStr.

Lemma lower_ascii_letter (c : ascii) :
  (lower_ascii c = "y"%char -> c = "y"%char \/ c = "Y"%char) /\
  (lower_ascii c = "e"%char -> c = "e"%char \/ c = "E"%char) /\
  (lower_ascii c = "s"%char -> c = "s"%char \/ c = "S"%char).
Proof.
  destruct c as [[] [] [] [] [] [] [] []];
    vm_compute; repeat split; intro H; try discriminate H; auto.
Qed.

(** [lower] agrees with ignoring case, as far as "yes" goes. *)
Lemma lower_yes_iff (s : string) :
  lower s = "yes" <-> In s yes_spellings.
Proof.
  split.
  - destruct s as [|a [|b [|c [|d s]]]]; simpl; try discriminate.
    intro H; injection H as Ha Hb Hc.
    apply lower_ascii_letter in Ha, Hb, Hc.
    destruct Ha, Hb, Hc; subst; tauto.
  - unfold yes_spellings; simpl.
    intros [H|[H|[H|[H|[H|[H|[H|[H|[]]]]]]]]]; subst; reflexivity.
Qed.

Lemma prefix_spec (n s : string) :
  String.prefix n s = true <-> exists post, s = n ++ post.
Proof.
  revert s; induction n as [|a n IH]; intros s.
  - split; [intros _; now exists s | intros _; now destruct s].
  - destruct s as [|b s]; simpl.
    + split; [discriminate | intros [post H]; discriminate H].
    + destruct (ascii_dec a b) as [->|Hab].
      * rewrite IH. split; intros [post H]; exists post; congruence.
      * split; [discriminate | intros [post H]; congruence].
Qed.

Lemma contains_eq (n s : string) :
  contains n s =
  (String.prefix n s ||
   match s with EmptyString => false | String _ s' => contains n s' end).
Proof.
  destruct s as [|c s]; cbn [contains];
    match goal with |- context [String.prefix ?a ?b] =>
      now destruct (String.prefix a b) end.
Qed.

(** [contains] is the substring test. *)
Lemma contains_spec (n s : string) :
  contains n s = true <-> occurs_in n s.
Proof.
  unfold occurs_in.
  induction s as [|c s IH]; rewrite contains_eq, orb_true_iff, prefix_spec.
  - split.
    + intros [[post H]|H]; [now exists "", post | discriminate].
    + intros [pre [post H]]. left.
      destruct pre; [now exists post | discriminate].
  - rewrite IH. split.
    + intros [[post H]|[pre [post H]]].
      * now exists "", post.
      * exists (String c pre), post. simpl. now rewrite H.
    + intros [pre [post H]].
      destruct pre as [|c' pre]; simpl in H.
      * left. now exists post.
      * right. exists pre, post. congruence.
Qed.

(** A relative name is put below the directory. *)
Lemma path_join_relative (a b : string) :
  startswith_sep b = false ->
  (String.eqb a "" || endswith_sep a) = false ->
  path_join a b = a ++ "/" ++ b.
Proof. unfold path_join. now intros -> ->. Qed.

End PyStrFacts.

(** ** Sorting *)

Section SortedFacts.
Variable A : Type.
Variable key : A -> Z.

Let has_key (t : Z) (x : A) : bool := (key x =? t)%Z.
Let ascending (x y : A) : Prop := (key x <= key y)%Z.
Let descending (x y : A) : Prop := (key y <= key x)%Z.

Lemma insert_asc_perm (x : A) (l : list A) :
  Permutation (x :: l) (insert_asc key x l).
Proof.
  induction l as [|y l IH]; simpl; [reflexivity|].
  destruct (key y <? key x)%Z; [|reflexivity].
  rewrite perm_swap. now constructor.
Qed.

Lemma sort_asc_perm (l : list A) : Permutation l (sort_asc key l).
Proof.
  induction l as [|x l IH]; simpl; [constructor|].
  rewrite <- insert_asc_perm. now constructor.
Qed.

Lemma insert_asc_sorted (x : A) (l : list A) :
  StronglySorted ascending l -> StronglySorted ascending (insert_asc key x l).
Proof.
  induction 1 as [|y l Hs IH Hy]; simpl.
  - repeat constructor.
  - destruct (Z.ltb_spec (key y) (key x)).
    + constructor; [exact IH|].
      rewrite Forall_forall in *. intros z Hz.
      apply (Permutation_in _ (Permutation_sym (insert_asc_perm x l))) in Hz.
      destruct Hz as [<-|Hz]; [unfold ascending; lia | now apply Hy].
    + constructor; [now constructor|].
      constructor; [exact H|].
      rewrite Forall_forall in *. intros z Hz.
      specialize (Hy z Hz). unfold ascending in *. lia.
Qed.

Lemma sort_asc_sorted (l : list A) : StronglySorted ascending (sort_asc key l).
Proof.
  induction l as [|x l IH]; simpl; [constructor | now apply insert_asc_sorted].
Qed.

Lemma insert_asc_stable (t : Z) (x : A) (l : list A) :
  filter (has_key t) (insert_asc key x l) = filter (has_key t) (x :: l).
Proof.
  induction l as [|y l IH]; [reflexivity|].
  cbn [insert_asc].
  destruct (Z.ltb_spec (key y) (key x)) as [Hlt|Hge]; [|reflexivity].
  cbn [filter] in *. rewrite IH. unfold has_key.
  destruct (Z.eqb_spec (key y) t), (Z.eqb_spec (key x) t); try reflexivity; lia.
Qed.

Lemma sort_asc_stable (t : Z) (l : list A) :
  filter (has_key t) (sort_asc key l) = filter (has_key t) l.
Proof.
  induction l as [|x l IH]; [reflexivity|].
  cbn [sort_asc fold_right]. fold (sort_asc key l).
  rewrite insert_asc_stable. cbn [filter]. now rewrite IH.
Qed.

Lemma filter_rev (p : A -> bool) (l : list A) :
  filter p (rev l) = rev (filter p l).
Proof.
  induction l as [|x l IH]; [reflexivity|].
  simpl. rewrite filter_app, IH. simpl.
  destruct (p x); simpl; [reflexivity | now rewrite app_nil_r].
Qed.

Lemma StronglySorted_rev (l : list A) :
  StronglySorted ascending l -> StronglySorted descending (rev l).
Proof.
  induction 1 as [|x l Hs IH Hx]; simpl; [constructor|].
  assert (Happ : forall l1 l2,
             StronglySorted descending l1 -> StronglySorted descending l2 ->
             (forall a b, In a l1 -> In b l2 -> descending a b) ->
             StronglySorted descending (l1 ++ l2)).
  { induction l1 as [|a l1 IH1]; intros l2 H1 H2 H12; simpl; [exact H2|].
    inversion H1 as [|? ? Hs1 Ha]; subst.
    constructor.
    - apply IH1; [exact Hs1 | exact H2 | intros; apply H12; simpl; auto].
    - rewrite Forall_app. split; [exact Ha|].
      rewrite Forall_forall. intros b Hb. apply H12; simpl; auto. }
  apply Happ; [exact IH | repeat constructor |].
  intros a b Ha [<-|[]]. rewrite <- in_rev in Ha.
  rewrite Forall_forall in Hx. exact (Hx a Ha).
Qed.

(** [sorted(l, key=key, reverse=True)] is a stable descending sort. *)
Lemma sorted_reverse_spec (l : list A) :
  Permutation l (sorted key true l) /\
  StronglySorted descending (sorted key true l) /\
  (forall t, filter (has_key t) (sorted key true l) = filter (has_key t) l).
Proof.
  unfold sorted. repeat split.
  - rewrite <- Permutation_rev, <- sort_asc_perm. apply Permutation_rev.
  - apply StronglySorted_rev, sort_asc_sorted.
  - intro t. rewrite filter_rev, sort_asc_stable, filter_rev. apply rev_involutive.
Qed.

End SortedFacts.

(** ** The script *)

Section Properties.
Context {Env : Type} {os : OS Env} {py : Runtime}.
Implicit Types (env : Env) (self : GithubBackup) (repo : Repository).

(** *** Traces *)


(** *** The loop *)

Lemma for_each_cons {A} (x : A) (xs : list A) (body : A -> M Env unit) env :
  for_each (x :: xs) body env =
  match outcome (body x env) with
  | inl _ =>
      let r := for_each xs body (final (body x env)) in
      mkRes (outcome r) (final r) (emitted (body x env) ++ emitted r)
  | inr e => mkRes (inr e) (final (body x env)) (emitted (body x env))
  end.
Proof.
  cbn [for_each]. unfold bind.
  destruct (body x env) as [[[]|e] env1 t1]; cbn [outcome final emitted];
    [|reflexivity].
  now destruct (for_each xs body env1).
Qed.

(** Whatever is read off the trace of a loop, one item per round, is a
    prefix of the items of the list, and all of them when the loop runs to
    its end. *)
Lemma for_each_prefix {A X} (g : event -> list X) (f : A -> X)
    (body : A -> M Env unit) :
  (forall x env,
      flat_map g (emitted (body x env)) = [f x] \/
      (flat_map g (emitted (body x env)) = [] /\
       exists e, outcome (body x env) = inr e)) ->
  forall xs env,
    (exists k, flat_map g (emitted (for_each xs body env)) = firstn k (map f xs)) /\
    (outcome (for_each xs body env) = inl tt ->
     flat_map g (emitted (for_each xs body env)) = map f xs).
Proof.
  intros Hbody xs. induction xs as [|x xs IH]; intro env.
  - split; [now exists 0%nat | reflexivity].
  - rewrite for_each_cons.
    destruct (Hbody x env) as [Hx|[Hx [e He]]].
    + destruct (outcome (body x env)) as [[]|e] eqn:Ho; cbn [outcome emitted].
      * destruct (IH (final (body x env))) as [[k Hk] Hall].
        rewrite flat_map_app, Hx. split.
        -- exists (S k). cbn [map firstn app]. now rewrite Hk.
        -- intro Hok. cbn [map app]. now rewrite (Hall Hok).
      * rewrite Hx. split; [now exists 1%nat | discriminate].
    + rewrite He; cbn [outcome emitted]. rewrite Hx.
      split; [now exists 0%nat | discriminate].
Qed.



(** *** verify_repository *)

(** C7 (as the code has it).  [verify_repository] returns [True] after an
    INFO record when [git fsck] exits with status zero and its captured
    output is text, and [False] after an ERROR record when it exits with
    another status and its output is text, that is when [subprocess.run]
    raises [CalledProcessError].  There is no clause for any other
    exception: [OSError] from a command that cannot be started and
    [UnicodeDecodeError] from output that does not decode leave
    [verify_repository] as they are, with nothing logged. *)
Theorem verify_repository_result self (target_dir : string) env :
  let r := verify_repository self target_dir env in
  let fsck := fsck_argv target_dir in
  match fst (spawn env fsck) with
  | inl p =>
      match decode (stdout_bytes p), decode (stderr_bytes p) with
      | Some out, Some err =>
          let cp := {| returncode := exit_code p;
                       stdout := out; stderr := err |} in
          if (exit_code p =? 0)%Z then
            outcome r = inl true /\
            emitted r =
              [Run fsck (inl cp);
               Log INFO ("Backup verification for " ++ target_dir
                           ++ " successful")]
          else
            outcome r = inl false /\
            emitted r =
              [Run fsck (inl cp);
               Log ERROR ("Backup verification for " ++ target_dir
                            ++ " failed: " ++ out)]
      | None, _ =>
          outcome r = inr (UnicodeDecodeError (stdout_bytes p)) /\
          emitted r = [Run fsck (inr (UnicodeDecodeError (stdout_bytes p)))]
      | Some _, None =>
          outcome r = inr (UnicodeDecodeError (stderr_bytes p)) /\
          emitted r = [Run fsck (inr (UnicodeDecodeError (stderr_bytes p)))]
      end
  | inr (CalledProcessError rc output) =>
      outcome r = inl false /\
      emitted r =
        [Run fsck (inr (CalledProcessError rc output));
         Log ERROR ("Backup verification for " ++ target_dir
                      ++ " failed: " ++ output)]
  | inr e =>
      outcome r = inr e /\ emitted r = [Run fsck (inr e)]
  end.
Proof.
  unfold_script.
  destruct (spawn env (fsck_argv target_dir)) as [[p|e] env1];
    cbn [fst snd completed].
  - destruct (decode (stdout_bytes p)) as [out|];
      [destruct (decode (stderr_bytes p)) as [err|]|];
      cbv beta iota zeta; cbn [returncode stdout];
      try (split; reflexivity).
    destruct (exit_code p =? 0)%Z; split; reflexivity.
  - destruct e; split; reflexivity.
Qed.

(** *** clone_or_update_repository *)

(** C10 (as the code has it).  On the update path, when [git fetch] exits
    with a non-zero status, [git merge] is never started.  When the
    captured output of fetch is text, the failure is logged and
    [clone_or_update_repository] returns at once; when it is not,
    [UnicodeDecodeError] leaves the function with nothing logged. *)
Theorem failed_fetch_skips_merge self repo (backup_dir : string) env
    (p : FinishedProcess) (env1 : Env) :
  let target_dir := target_dir_of repo backup_dir in
  path_exists env target_dir = true ->
  spawn env (fetch_argv target_dir) = (inl p, env1) ->
  exit_code p <> 0%Z ->
  let r := clone_or_update_repository self repo backup_dir env in
  count_runs is_merge (emitted r) = 0%nat /\
  runs (emitted r) = [fetch_argv target_dir] /\
  final r = env1 /\
  match decode (stdout_bytes p), decode (stderr_bytes p) with
  | Some out, Some err =>
      outcome r = inl tt /\
      emitted r =
        [PathExists target_dir true;
         Log INFO ("Updating " ++ name repo ++ " in " ++ backup_dir);
         Run (fetch_argv target_dir)
             (inl {| returncode := exit_code p; stdout := out; stderr := err |});
         Log ERROR ("Failed to update " ++ name repo ++ " in " ++ backup_dir
                      ++ ": " ++ out)]
  | _, _ =>
      (exists bytes, outcome r = inr (UnicodeDecodeError bytes)) /\
      error_records (emitted r) = []
  end.
Proof.
  intros target_dir Hthere Hfetch Hrc r.
  subst r. unfold_script. fold target_dir.
  rewrite Hthere. cbv beta iota. rewrite Hfetch. cbn [completed].
  apply Z.eqb_neq in Hrc.
  destruct (decode (stdout_bytes p)) as [out|];
    [destruct (decode (stderr_bytes p)) as [err|]|];
    cbv beta iota zeta; cbn [returncode stdout]; try rewrite Hrc;
    repeat split; eexists; reflexivity.
Qed.

(** C2 (as the code has it).  Which path is taken depends on the target
    directory alone.  When it does not exist, the clone command is started
    exactly once and neither fetch nor merge is started.  When it exists,
    the clone command is never started, fetch is started exactly once, and
    merge is started once, after fetch, exactly when the call for fetch
    returned: fetch exited with status zero and its captured output was
    text. *)
Theorem sync_takes_one_path self repo (backup_dir : string) env :
  let target_dir := target_dir_of repo backup_dir in
  let t := emitted (clone_or_update_repository self repo backup_dir env) in
  let fetched :=
    match fst (spawn env (fetch_argv target_dir)) with
    | inl p => (exit_code p =? 0)%Z && decodes p
    | inr _ => false
    end in
  if path_exists env target_dir then
    count_runs is_clone t = 0%nat /\
    count_runs is_fetch t = 1%nat /\
    count_runs is_merge t = (if fetched then 1 else 0)%nat /\
    runs t = fetch_argv target_dir ::
             (if fetched then [merge_argv target_dir] else [])
  else
    count_runs is_clone t = 1%nat /\
    count_runs is_fetch t = 0%nat /\
    count_runs is_merge t = 0%nat /\
    hd [] (runs t) = clone_argv (repo_url repo) target_dir.
Proof.
  intros target_dir t fetched. subst t fetched target_dir.
  unfold_script.
  destruct (path_exists env (target_dir_of repo backup_dir)); cbv beta iota.
  - destruct (spawn env (fetch_argv (target_dir_of repo backup_dir)))
      as [[p|ex] env1]; cbn [fst snd completed]; unfold decodes.
    + destruct (decode (stdout_bytes p)) as [out|];
        [destruct (decode (stderr_bytes p)) as [err|]|];
        cbv beta iota zeta; cbn [returncode stdout];
        rewrite ?andb_false_r, ?andb_true_r;
        try (repeat split; fail).
      destruct (exit_code p =? 0)%Z; cbv beta iota;
        repeat ask_os; repeat split.
    + destruct ex; repeat split.
  - repeat ask_os; repeat split.
Qed.

(** C6.  The URL given to the clone command is [repo.ssh_url] when the
    marker "ssh://" occurs in that string and [repo.clone_url] when it does
    not; on the clone path it is the URL of the first command started, and
    nothing but the repository has a say in it. *)
Theorem clone_url_selection self repo (backup_dir : string) env :
  let target_dir := target_dir_of repo backup_dir in
  let t := emitted (clone_or_update_repository self repo backup_dir env) in
  (occurs_in "ssh://" (ssh_url repo) -> repo_url repo = ssh_url repo) /\
  (~ occurs_in "ssh://" (ssh_url repo) -> repo_url repo = clone_url repo) /\
  (path_exists env target_dir = false ->
   hd [] (runs t) = clone_argv (repo_url repo) target_dir /\
   nth 6 (hd [] (runs t)) "" = repo_url repo).
Proof.
  intros target_dir t. split; [|split].
  - intro H. apply PyStrFacts.contains_spec in H.
    unfold repo_url. now rewrite H.
  - intro H. unfold repo_url.
    destruct (PyStr.contains "ssh://" (ssh_url repo)) eqn:Hc; [|reflexivity].
    now apply PyStrFacts.contains_spec in Hc.
  - intro Hthere. subst t target_dir. unfold_script.
    rewrite Hthere. cbv beta iota.
    repeat ask_os; split; reflexivity.
Qed.

(** *** One round of the loop *)

Lemma backup_one_made self repo env :
  made (emitted (backup_one self repo env)) = [backup_dir_of repo].
Proof. every_course; reflexivity. Qed.

Lemma backup_one_started self repo env :
  started (emitted (backup_one self repo env))
    = [target_dir_of repo (backup_dir_of repo)] \/
  (started (emitted (backup_one self repo env)) = [] /\
   exists e, outcome (backup_one self repo env) = inr e).
Proof. every_course; first [now left | right; split; [reflexivity | eauto]]. Qed.





(** On the update path [git fsck] is not started. *)
Lemma update_path_never_verifies self repo (backup_dir : string) env :
  path_exists env (target_dir_of repo backup_dir) = true ->
  count_runs is_fsck
    (emitted (clone_or_update_repository self repo backup_dir env)) = 0%nat.
Proof.
  intro Hthere. unfold_script. rewrite Hthere. cbv beta iota.
  repeat ask_os; reflexivity.
Qed.

(** On the clone path [git fsck] is started on the target directory
    whether the clone command exited with zero or not. *)
Lemma clone_path_verifies self repo (backup_dir : string) env :
  let target_dir := target_dir_of repo backup_dir in
  path_exists env target_dir = false ->
  returned_or_caught
    (completed (fst (spawn env (clone_argv (repo_url repo) target_dir))))
    = true ->
  runs (emitted (clone_or_update_repository self repo backup_dir env))
    = [clone_argv (repo_url repo) target_dir; fsck_argv target_dir].
Proof.
  intros target_dir Hthere. subst target_dir. unfold_script.
  rewrite Hthere. cbv beta iota.
  repeat ask_os; cbn [returned_or_caught]; intro H;
    first [discriminate H | reflexivity].
Qed.

(** *** The run *)

Lemma get_repositories_lists self (repos : list Repository) env :
  get_repositories self (inl repos) env
    = mkRes (inl (sorted updated_at true repos)) env [].
Proof. reflexivity. Qed.

Lemma bind_emit {B} (ev : event) (k : unit -> M Env B) env :
  bind (emit ev) k env =
  match k tt env with
  | mkRes o env1 t => mkRes o env1 (ev :: t)
  end.
Proof. reflexivity. Qed.

Lemma print_each (lines : list Repository) env :
  for_each lines (fun repo => print (display_line repo)) env
    = mkRes (inl tt) env (map (fun repo => Print (display_line repo)) lines).
Proof.
  induction lines as [|l lines IH]; [reflexivity|].
  cbn [for_each map]. unfold print at 1. now rewrite bind_emit, IH.
Qed.

Lemma display_repositories_prints self (repos : list Repository) env :
  display_repositories self repos env
    = mkRes (inl tt) env
        (Print "Repositories:"
           :: map (fun repo => Print (display_line repo)) repos).
Proof.
  unfold display_repositories. unfold print at 1.
  now rewrite bind_emit, print_each.
Qed.

Lemma backup_repositories_eq self (repos : list Repository) (reply : string) env :
  backup_repositories self (inl repos) reply env =
  let r := if String.eqb (PyStr.lower reply) "yes"
           then for_each (sorted updated_at true repos) (backup_one self) env
           else mkRes (inl tt) env [Print "Backup canceled."] in
  mkRes (outcome r) (final r) (announced repos reply ++ emitted r).
Proof.
  unfold backup_repositories, bind.
  rewrite get_repositories_lists, display_repositories_prints.
  cbv beta iota zeta delta [input emit bind ret print announced].
  destruct (String.eqb (PyStr.lower reply) "yes"); cbn [negb].
  - destruct (for_each _ _ env) as [o env1 t1]; cbn [outcome final emitted].
    f_equal. cbn [app]. now rewrite <- app_assoc.
  - cbn [outcome final emitted]. f_equal. cbn [app]. now rewrite <- app_assoc.
Qed.

Lemma yes_confirms (reply : string) :
  In reply yes_spellings -> String.eqb (PyStr.lower reply) "yes" = true.
Proof. intro H. apply String.eqb_eq. now apply PyStrFacts.lower_yes_iff. Qed.

Lemma other_declines (reply : string) :
  ~ In reply yes_spellings -> String.eqb (PyStr.lower reply) "yes" = false.
Proof.
  intro H. apply String.eqb_neq. intro Heq. apply H.
  now apply PyStrFacts.lower_yes_iff.
Qed.

(** Nothing is made, tested or started while the table is shown and the
    question asked. *)
Lemma announced_silent {X} (g : event -> list X) (repos : list Repository)
    (reply : string) :
  (forall line, g (Print line) = []) ->
  (forall a b, g (Input a b) = []) ->
  flat_map g (announced repos reply) = [].
Proof.
  intros Hp Hi. unfold announced. cbn [flat_map]. rewrite Hp. cbn [app].
  rewrite flat_map_app. cbn [flat_map]. rewrite Hi. cbn [app].
  rewrite app_nil_r.
  induction (sorted updated_at true repos) as [|r l IH]; [reflexivity|].
  cbn [map flat_map]. now rewrite Hp.
Qed.


Lemma printed_announced (repos : list Repository) (reply : string)
    (t : list event) :
  printed (announced repos reply ++ t)
    = ("Repositories:" :: map display_line (sorted updated_at true repos)
         ++ printed t)%list.
Proof.
  assert (H : forall l,
             printed (map (fun repo => Print (display_line repo)) l)
             = map display_line l).
  { induction l as [|x l IH]; [reflexivity|].
    cbn [map printed flat_map app]. f_equal. exact IH. }
  unfold announced. cbn [app printed flat_map]. f_equal.
  fold (printed
          ((map (fun repo => Print (display_line repo))
                (sorted updated_at true repos) ++ [Input confirm_prompt reply])
             ++ t)).
  unfold printed at 1. rewrite !flat_map_app.
  fold (printed (map (fun repo => Print (display_line repo))
                     (sorted updated_at true repos))).
  rewrite H. cbn [flat_map app]. now rewrite app_nil_r.
Qed.

Lemma firstn_length_app {X} (l l' : list X) : firstn (length l) (l ++ l') = l.
Proof. induction l as [|x l IH]; [reflexivity|]. cbn. now rewrite IH. Qed.

Lemma In_firstn {X} (x : X) (k : nat) (l : list X) :
  In x (firstn k l) -> In x l.
Proof.
  intro H. rewrite <- (firstn_skipn k l). apply in_or_app. now left.
Qed.

(** What the loop of a confirmed run leaves in the trace. *)
Lemma loop_made self (repos : list Repository) env :
  let r := for_each repos (backup_one self) env in
  (exists k, made (emitted r) = firstn k (map backup_dir_of repos)) /\
  (outcome r = inl tt -> made (emitted r) = map backup_dir_of repos).
Proof.
  apply (for_each_prefix
           (fun ev => match ev with Makedirs p _ => [p] | _ => [] end)
           backup_dir_of).
  intros repo env'. left. apply backup_one_made.
Qed.

Lemma loop_started self (repos : list Repository) env :
  let r := for_each repos (backup_one self) env in
  let target repo := target_dir_of repo (backup_dir_of repo) in
  (exists k, started (emitted r) = firstn k (map target repos)) /\
  (outcome r = inl tt -> started (emitted r) = map target repos).
Proof.
  apply (for_each_prefix
           (fun ev => match ev with PathExists p _ => [p] | _ => [] end)
           (fun repo => target_dir_of repo (backup_dir_of repo))).
  intros repo env'. apply backup_one_started.
Qed.

(** C3.  When the operator's answer is not "yes" in some mix of upper and
    lower case, the run prints "Backup canceled." and returns: no directory
    is made, no target directory is looked at, no command is started, and
    the machine is left as it was. *)
Theorem declined_run_has_no_effect self (repos : list Repository)
    (reply : string) env :
  ~ In reply yes_spellings ->
  let r := backup_repositories self (inl repos) reply env in
  outcome r = inl tt /\
  final r = env /\
  emitted r = (announced repos reply ++ [Print "Backup canceled."])%list /\
  made (emitted r) = [] /\
  started (emitted r) = [] /\
  runs (emitted r) = [].
Proof.
  intros Hno r. subst r.
  rewrite backup_repositories_eq, (other_declines Hno).
  cbn [outcome final emitted].
  repeat split; unfold made, started, runs;
    rewrite flat_map_app, announced_silent; reflexivity.
Qed.

(** C4.  [get_repositories] returns the repositories of the service by
    descending [updated_at], those with equal times in the order the
    service gave them; the table is printed in that order, and a confirmed
    run goes through the target directories in that order, through all of
    them when it runs to its end. *)
Theorem repositories_most_recent_first self (repos : list Repository)
    (reply : string) env :
  In reply yes_spellings ->
  let listed := sorted updated_at true repos in
  let r := backup_repositories self (inl repos) reply env in
  outcome (get_repositories self (inl repos) env) = inl listed /\
  Permutation repos listed /\
  StronglySorted (fun a b => (updated_at b <= updated_at a)%Z) listed /\
  (forall t, filter (fun repo => (updated_at repo =? t)%Z) listed
             = filter (fun repo => (updated_at repo =? t)%Z) repos) /\
  emitted (display_repositories self listed env)
    = Print "Repositories:" :: map (fun repo => Print (display_line repo)) listed /\
  (exists k, firstn k (printed (emitted r))
             = "Repositories:" :: map display_line listed) /\
  (exists k, started (emitted r)
             = firstn k (map (fun repo => target_dir_of repo (backup_dir_of repo))
                             listed)) /\
  (outcome r = inl tt ->
   started (emitted r)
     = map (fun repo => target_dir_of repo (backup_dir_of repo)) listed).
Proof.
  intros Hyes listed r.
  destruct (sorted_reverse_spec updated_at repos) as (Hperm & Hsorted & Hstable).
  repeat match goal with |- _ /\ _ => split end;
    try assumption; try reflexivity.
  - now rewrite display_repositories_prints.
  - subst r. rewrite backup_repositories_eq.
    exists (S (length (map display_line listed))). cbn [emitted].
    rewrite printed_announced. fold listed. cbn [firstn]. f_equal.
    apply firstn_length_app.
  - subst r. rewrite backup_repositories_eq, (yes_confirms Hyes).
    cbn [outcome emitted]. unfold started.
    rewrite flat_map_app, announced_silent by reflexivity.
    apply loop_started.
  - subst r. rewrite backup_repositories_eq, (yes_confirms Hyes).
    cbn [outcome emitted]. unfold started.
    rewrite flat_map_app, announced_silent by reflexivity.
    apply loop_started.
Qed.


(** C9 (as the code has it).  In a confirmed run the script asks for no
    directory but the category directory of the repository at hand,
    "private_repos" for a private repository and "public_repos" otherwise,
    once per repository reached; a category without repositories is not
    made.  The target directory of a repository is its name below its
    category directory. *)
Theorem backup_layout self (repos : list Repository) (reply : string) env :
  In reply yes_spellings ->
  let listed := sorted updated_at true repos in
  let r := backup_repositories self (inl repos) reply env in
  (exists k, made (emitted r) = firstn k (map backup_dir_of listed)) /\
  (outcome r = inl tt -> made (emitted r) = map backup_dir_of listed) /\
  (forall d, In d (made (emitted r)) ->
             exists repo, In repo repos /\ d = backup_dir_of repo) /\
  (forall repo, backup_dir_of repo
                = if private repo then "private_repos" else "public_repos") /\
  (exists k, started (emitted r) = firstn k (targets repos)) /\
  (forall repo, PyStr.startswith_sep (name repo) = false ->
                target_dir_of repo (backup_dir_of repo)
                = backup_dir_of repo ++ "/" ++ name repo).
Proof.
  intros Hyes listed r.
  assert (Hmade : made (emitted r)
                  = made (emitted (for_each listed (backup_one self) env))).
  { subst r. rewrite backup_repositories_eq, (yes_confirms Hyes).
    cbn [emitted]. unfold made.
    now rewrite flat_map_app, announced_silent by reflexivity. }
  assert (Hout : outcome r = outcome (for_each listed (backup_one self) env)).
  { subst r. now rewrite backup_repositories_eq, (yes_confirms Hyes). }
  destruct (loop_made self listed env) as [[k Hk] Hall].
  repeat match goal with |- _ /\ _ => split end.
  - exists k. now rewrite Hmade.
  - rewrite Hmade, Hout. exact Hall.
  - intros d Hd. rewrite Hmade, Hk in Hd.
    apply In_firstn, in_map_iff in Hd as [repo [<- Hin]].
    exists repo. split; [|reflexivity].
    apply (Permutation_in _
             (Permutation_sym (proj1 (sorted_reverse_spec updated_at repos)))).
    exact Hin.
  - intro repo. unfold backup_dir_of. now destruct (private repo).
  - subst r. rewrite backup_repositories_eq, (yes_confirms Hyes).
    cbn [emitted]. unfold started.
    rewrite flat_map_app, announced_silent by reflexivity.
    apply loop_started.
  - intros repo Hrel. unfold target_dir_of.
    apply PyStrFacts.path_join_relative; [exact Hrel|].
    unfold backup_dir_of. now destruct (private repo).
Qed.

(** C8.  Without a token on the command line the script prints the usage
    line and exits with status 1.  With a token, when listing the
    repositories raises a network error ([RequestException]) or an API
    error such as a refused token ([GithubException]), the process exits
    with status 1 as well.  Either way no directory is made, no target
    directory is looked at, no command is started and the operator is not
    asked. *)
Theorem fatal_errors_exit_with_1 (argv : list string)
    (listing : list Repository + exn) (reply : string) env :
  let r := main argv listing reply env in
  ((length argv < 2)%nat ->
   exit_status r = 1%Z /\ emitted r = [Print usage] /\ final r = env) /\
  ((2 <= length argv)%nat ->
   (exists msg, listing = inr (RequestException msg) \/
                listing = inr (GithubException msg)) ->
   exit_status r = 1%Z /\
   (exists e, outcome r = inr e) /\
   (forall ev, In ev (emitted r) -> exists msg, ev = Log ERROR msg) /\
   made (emitted r) = [] /\ started (emitted r) = [] /\ runs (emitted r) = [] /\
   final r = env).
Proof.
  intro r. subst r. unfold main. split.
  - intro Hlen. apply Nat.ltb_lt in Hlen. rewrite Hlen. repeat split.
  - intros Hlen [msg Hlisting].
    apply Nat.ltb_ge in Hlen. rewrite Hlen.
    destruct (3 <=? length argv)%nat;
      [destruct (int_of_str (nth 2 argv ""))|];
      destruct Hlisting as [-> | ->];
      cbv beta iota zeta delta
        [backup_repositories get_repositories try_except bind ret raise
         logging_error sys_exit emit exit_status outcome final emitted];
      try destruct Github_has_GithubException;
      cbv beta iota;
      (repeat match goal with |- _ /\ _ => split end;
       try reflexivity; try (eexists; reflexivity);
       intros ev Hin; cbn [In app] in Hin;
       repeat destruct Hin as [Hin|Hin]; try contradiction;
       subst ev; eexists; reflexivity).
Qed.

End Properties.

(** ** Runs on the small machine *)



(** C1.  A repository whose target directory is already there is fetched
    and merged, and [git fsck] is not started on it: the update path of
    [clone_or_update_repository] returns before the call of
    [verify_repository] that ends the clone path. *)
Theorem updated_repository_is_not_verified :
  let r := backup_repositories (os := Machine true all_fine)
             (py := sample_runtime) no_delay (inl [beta]) "yes"
             ["public_repos/beta"] in
  outcome r = inl tt /\
  started (emitted r) = ["public_repos/beta"] /\
  runs (emitted r)
    = [fetch_argv "public_repos/beta"; merge_argv "public_repos/beta"] /\
  count_runs is_fsck (emitted r) = 0%nat /\
  ~ In (fsck_argv "public_repos/beta") (runs (emitted r)).
Proof.
  vm_compute. repeat split.
  intros [H|[H|[]]]; discriminate H.
Qed.

(** C2, the reading refuted: with the target directory there and a fetch
    that exits with status 1, merge is not started. *)
Lemma failed_fetch_refutes_update_always_merges :
  ~ update_always_merges (os := Machine true fetch_fails)
      no_delay beta "public_repos" ["public_repos/beta"].
Proof.
  intros [_ H]. specialize (H eq_refl).
  vm_compute in H. destruct H as (_ & H & _). discriminate H.
Qed.


(** C7, the reading refuted: without git on the machine
    [verify_repository] raises [OSError]. *)
Lemma missing_git_refutes_verify_never_raises :
  ~ verify_never_raises (os := Machine false all_fine)
      no_delay "public_repos/beta" [].
Proof.
  intros [b H]. vm_compute in H. discriminate H.
Qed.

(** C9, the reading refuted: a confirmed run over one public repository
    does not make "private_repos". *)
Lemma public_only_refutes_makes_both_directories :
  ~ makes_both_directories (os := Machine true all_fine) (py := sample_runtime)
      no_delay [beta] "yes" [].
Proof.
  intro H. destruct H as [_ H]; [simpl; auto|].
  vm_compute in H. destruct H as [H|[]]. discriminate H.
Qed.

(** C10, the reading refuted: a fetch that exits with status 1 and writes
    bytes that are not text raises [UnicodeDecodeError]; the function does
    not return and nothing is logged. *)
Lemma garbled_fetch_refutes_failed_fetch_is_logged :
  ~ failed_fetch_is_logged (os := Machine true fetch_garbles)
      no_delay beta "public_repos" ["public_repos/beta"].
Proof.
  intro H. destruct H as (_ & H & _).
  - reflexivity.
  - eexists. split; [reflexivity | simpl; lia].
  - vm_compute in H. discriminate H.
Qed.

(** *** The theorems at work *)

Lemma failed_fetch_skips_merge_witness :
  let r := clone_or_update_repository (os := Machine true fetch_fails)
             no_delay beta "public_repos" ["public_repos/beta"] in
  outcome r = inl tt /\
  runs (emitted r) = [fetch_argv "public_repos/beta"] /\
  count_runs is_merge (emitted r) = 0%nat.
Proof.
  destruct (failed_fetch_skips_merge (os := Machine true fetch_fails)
              no_delay beta "public_repos" ["public_repos/beta"]
              (p := {| exit_code := 1;
                       stdout_bytes := "fatal: unable to access remote";
                       stderr_bytes := "" |})
              (env1 := ["public_repos/beta"]))
    as (Hmerge & Hruns & _ & Hout & _);
    [reflexivity | reflexivity | simpl; lia |].
  intro r. split; [exact Hout | split; [exact Hruns | exact Hmerge]].
Defined.

Lemma declined_run_has_no_effect_witness :
  let r := backup_repositories (os := Machine true all_fine)
             (py := sample_runtime) no_delay (inl [beta; alpha]) "No thanks" [] in
  outcome r = inl tt /\
  final r = [] /\
  printed (emitted r)
    = ["Repositories:"; "Private: alpha (Last updated: Sat)";
       "Public: beta (Last updated: Fri)"; "Backup canceled."] /\
  made (emitted r) = [] /\ started (emitted r) = [] /\ runs (emitted r) = [].
Proof.
  destruct (declined_run_has_no_effect (os := Machine true all_fine)
              (py := sample_runtime) no_delay [beta; alpha] (reply := "No thanks") [])
    as (Hout & Hfinal & Htrace & Hmade & Hstarted & Hruns).
  - unfold yes_spellings. simpl.
    intros [H|[H|[H|[H|[H|[H|[H|[H|[]]]]]]]]]; discriminate H.
  - intro r. split; [exact Hout | split; [exact Hfinal | split]].
    + subst r. rewrite Htrace. reflexivity.
    + split; [exact Hmade | split; [exact Hstarted | exact Hruns]].
Defined.

Lemma repositories_most_recent_first_witness :
  let r := backup_repositories (os := Machine true all_fine)
             (py := sample_runtime) no_delay (inl [beta; alpha; gamma]) "YES" [] in
  outcome (get_repositories (py := sample_runtime)
             no_delay (inl [beta; alpha; gamma]) ([] : list string))
    = inl [alpha; beta; gamma] /\
  started (emitted r)
    = ["private_repos/alpha"; "public_repos/beta"; "public_repos/gamma"].
Proof.
  destruct (repositories_most_recent_first (os := Machine true all_fine)
              (py := sample_runtime) no_delay [beta; alpha; gamma]
              (reply := "YES") [])
    as (Hlisted & _ & _ & _ & _ & _ & _ & Hall).
  - simpl. tauto.
  - split; [exact Hlisted | exact (Hall eq_refl)].
Defined.


Lemma clone_url_selection_witness :
  repo_url gamma = ssh_url gamma /\
  repo_url beta = clone_url beta /\
  nth 6 (hd [] (runs (emitted
           (clone_or_update_repository (os := Machine true all_fine)
              no_delay beta "public_repos" [])))) ""
    = "https://github.com/octocat/beta.git".
Proof.
  destruct (clone_url_selection (os := Machine true all_fine)
              no_delay gamma "public_repos" []) as (Hssh & _ & _).
  destruct (clone_url_selection (os := Machine true all_fine)
              no_delay beta "public_repos" []) as (_ & Hhttps & Hclone).
  split; [|split].
  - apply Hssh. exists "", "git@git.example.org/octocat/gamma.git". reflexivity.
  - apply Hhttps. intro H. apply PyStrFacts.contains_spec in H. discriminate H.
  - destruct (Hclone eq_refl) as [_ H]. exact H.
Defined.

Lemma fatal_errors_exit_with_1_witness :
  exit_status (main (os := Machine true all_fine) (py := sample_runtime)
                 ["backup_github_repos.py"] (inl [beta]) "yes" []) = 1%Z /\
  exit_status (main (os := Machine true all_fine) (py := sample_runtime)
                 ["backup_github_repos.py"; "token"]
                 (inr (GithubException "401 Bad credentials")) "yes" []) = 1%Z /\
  exit_status (main (os := Machine true all_fine) (py := sample_runtime)
                 ["backup_github_repos.py"; "token"; "5"]
                 (inr (RequestException "Connection refused")) "yes" []) = 1%Z.
Proof.
  destruct (fatal_errors_exit_with_1 (os := Machine true all_fine)
              (py := sample_runtime) ["backup_github_repos.py"]
              (inl [beta]) "yes" []) as [Husage _].
  destruct (fatal_errors_exit_with_1 (os := Machine true all_fine)
              (py := sample_runtime) ["backup_github_repos.py"; "token"]
              (inr (GithubException "401 Bad credentials")) "yes" [])
    as [_ Hapi].
  destruct (fatal_errors_exit_with_1 (os := Machine true all_fine)
              (py := sample_runtime) ["backup_github_repos.py"; "token"; "5"]
              (inr (RequestException "Connection refused")) "yes" [])
    as [_ Hnet].
  split; [|split].
  - apply Husage. simpl. lia.
  - apply Hapi; [simpl; lia|]. exists "401 Bad credentials". now right.
  - apply Hnet; [simpl; lia|]. exists "Connection refused". now left.
Defined.

Lemma backup_layout_witness :
  let r := backup_repositories (os := Machine true all_fine)
             (py := sample_runtime) no_delay (inl [beta; alpha]) "yes" [] in
  made (emitted r) = ["private_repos"; "public_repos"] /\
  target_dir_of alpha (backup_dir_of alpha) = "private_repos/alpha" /\
  target_dir_of beta (backup_dir_of beta) = "public_repos/beta".
Proof.
  destruct (backup_layout (os := Machine true all_fine)
              (py := sample_runtime) no_delay [beta; alpha] (reply := "yes") [])
    as (_ & Hmade & _ & _ & _ & Htarget).
  - simpl. tauto.
  - split; [exact (Hmade eq_refl)|].
    split; [exact (Htarget alpha eq_refl) | exact (Htarget beta eq_refl)].
Defined.

(** * Further properties of the script *)

(** ** Sorting once more *)

Section SortedMore.
Variable A : Type.
Variable key : A -> Z.

Lemma sort_asc_of_sorted (l : list A) :
  StronglySorted (fun x y => (key x <= key y)%Z) l -> sort_asc key l = l.
Proof.
  induction 1 as [|x l Hs IH Hx]; [reflexivity|].
  cbn [sort_asc fold_right]. fold (sort_asc key l). rewrite IH.
  destruct l as [|y l]; [reflexivity|].
  cbn [insert_asc]. inversion Hx as [|? ? Hxy _]; subst.
  destruct (Z.ltb_spec (key y) (key x)); [lia | reflexivity].
Qed.

Lemma descending_rev_ascending (l : list A) :
  StronglySorted (fun x y => (key y <= key x)%Z) l ->
  StronglySorted (fun x y => (key x <= key y)%Z) (rev l).
Proof.
  induction 1 as [|x l Hs IH Hx]; cbn [rev]; [constructor|].
  assert (Hsnoc : forall l', StronglySorted (fun x y => (key x <= key y)%Z) l' ->
                    Forall (fun y => (key y <= key x)%Z) l' ->
                    StronglySorted (fun x y => (key x <= key y)%Z) (l' ++ [x])).
  { induction 1 as [|a l' Hs' IH' Ha]; intro Hall; cbn [app].
    - repeat constructor.
    - inversion Hall as [|? ? Hax Hall']; subst.
      constructor; [now apply IH'|].
      rewrite Forall_app. split; [exact Ha | now repeat constructor]. }
  apply Hsnoc; [exact IH|].
  rewrite Forall_forall in *. intros y Hy. apply Hx. now apply in_rev.
Qed.

Lemma sorted_descending_unique (l1 l2 : list A) :
  StronglySorted (fun x y => (key y <= key x)%Z) l1 ->
  StronglySorted (fun x y => (key y <= key x)%Z) l2 ->
  Permutation l1 l2 ->
  NoDup (map key l1) ->
  l1 = l2.
Proof.
  intros H1. revert l2.
  induction H1 as [|a l1 Hs1 IH Ha]; intros l2 H2 Hperm Hnd.
  - apply Permutation_nil in Hperm. now subst.
  - destruct l2 as [|b l2].
    + apply Permutation_sym, Permutation_nil in Hperm. discriminate Hperm.
    + inversion H2 as [|? ? Hs2 Hb]; subst.
      inversion Hnd as [|? ? Hnotin Hnd']; subst.
      assert (Hab : a = b).
      { assert (Hina : In a (b :: l2))
          by (apply (Permutation_in _ Hperm); now left).
        assert (Hinb : In b (a :: l1))
          by (apply (Permutation_in _ (Permutation_sym Hperm)); now left).
        destruct Hina as [Heq|Hina]; [now symmetry|].
        destruct Hinb as [Heq|Hinb]; [exact Heq|].
        exfalso. apply Hnotin.
        rewrite Forall_forall in Ha, Hb.
        specialize (Ha b Hinb). specialize (Hb a Hina).
        replace (key a) with (key b) by lia.
        now apply in_map. }
      subst b. f_equal.
      apply IH; [exact Hs2 | now apply Permutation_cons_inv in Hperm | exact Hnd'].
Qed.

End SortedMore.

(** ** The script once more *)

Section Further.
Context {Env : Type} {os : OS Env} {py : Runtime}.
Implicit Types (env : Env) (self : GithubBackup) (repo : Repository).

(** *** get_repositories *)

(** X1.  What [get_repositories] returns does not depend on the order in
    which the service gave the repositories, as long as no two of them have
    the same [updated_at]. *)
Theorem listing_ignores_service_order self (repos repos' : list Repository) env :
  Permutation repos repos' ->
  NoDup (map updated_at repos) ->
  outcome (get_repositories self (inl repos) env)
    = outcome (get_repositories self (inl repos') env).
Proof.
  intros Hperm Hnd. rewrite !get_repositories_lists. cbn [outcome]. f_equal.
  destruct (sorted_reverse_spec updated_at repos) as (Hp & Hs & _).
  destruct (sorted_reverse_spec updated_at repos') as (Hp' & Hs' & _).
  apply (sorted_descending_unique updated_at Hs Hs').
  - now rewrite <- Hp, Hperm.
  - apply (Permutation_NoDup (l := map updated_at repos)); [|exact Hnd].
    now apply Permutation_map.
Qed.

(** X2.  Listing what was listed changes nothing: the order that
    [get_repositories] returns is kept when its result is sorted again. *)
Theorem listing_again_keeps_order self (repos : list Repository) env :
  get_repositories self (inl (sorted updated_at true repos)) env
    = get_repositories self (inl repos) env.
Proof.
  rewrite !get_repositories_lists. do 2 f_equal.
  destruct (sorted_reverse_spec updated_at repos) as (_ & Hs & _).
  unfold sorted at 1.
  rewrite (sort_asc_of_sorted updated_at
             (descending_rev_ascending updated_at Hs)).
  apply rev_involutive.
Qed.

(** *** clone_or_update_repository *)

(** X3.  On the clone path a clone that exits with a non-zero status and
    whose captured output is text is logged with that output, and the
    function then goes on exactly as [verify_repository] does on the
    machine the clone left behind: the target directory is checked
    although the clone failed. *)
Theorem failed_clone_is_still_verified self repo (backup_dir : string) env
    (p : FinishedProcess) (out err : string) (env1 : Env) :
  let target_dir := target_dir_of repo backup_dir in
  path_exists env target_dir = false ->
  spawn env (clone_argv (repo_url repo) target_dir) = (inl p, env1) ->
  exit_code p <> 0%Z ->
  decode (stdout_bytes p) = Some out ->
  decode (stderr_bytes p) = Some err ->
  let r := clone_or_update_repository self repo backup_dir env in
  let v := verify_repository self target_dir env1 in
  emitted r =
    ([PathExists target_dir false;
      Log INFO ("Cloning " ++ name repo ++ " to " ++ backup_dir);
      Run (clone_argv (repo_url repo) target_dir)
          (inl {| returncode := exit_code p; stdout := out; stderr := err |});
      Log ERROR ("Failed to clone " ++ name repo ++ " to " ++ backup_dir
                   ++ ": " ++ out)] ++ emitted v)%list /\
  final r = final v /\
  outcome r = match outcome v with inl _ => inl tt | inr e => inr e end /\
  hd [] (runs (emitted v)) = fsck_argv target_dir.
Proof.
  intros target_dir Hthere Hclone Hrc Hout Herr r v. subst r v target_dir.
  unfold_script. rewrite Hthere. cbv beta iota. rewrite Hclone.
  cbn [completed]. rewrite Hout, Herr. cbv beta iota zeta.
  cbn [returncode stdout].
  apply Z.eqb_neq in Hrc. rewrite Hrc. cbv beta iota.
  repeat ask_os; repeat split.
Qed.

(** X4.  On the update path, when fetch exits with status zero and merge
    with another status, the output of both being text, the failure of
    merge is logged with its captured output, "Successfully updated" is not
    logged, and the function returns without raising. *)
Theorem failed_merge_is_logged self repo (backup_dir : string) env
    (p p' : FinishedProcess) (out err out' err' : string) (env1 env2 : Env) :
  let target_dir := target_dir_of repo backup_dir in
  path_exists env target_dir = true ->
  spawn env (fetch_argv target_dir) = (inl p, env1) ->
  exit_code p = 0%Z ->
  decode (stdout_bytes p) = Some out ->
  decode (stderr_bytes p) = Some err ->
  spawn env1 (merge_argv target_dir) = (inl p', env2) ->
  exit_code p' <> 0%Z ->
  decode (stdout_bytes p') = Some out' ->
  decode (stderr_bytes p') = Some err' ->
  let r := clone_or_update_repository self repo backup_dir env in
  outcome r = inl tt /\
  final r = env2 /\
  emitted r =
    [PathExists target_dir true;
     Log INFO ("Updating " ++ name repo ++ " in " ++ backup_dir);
     Run (fetch_argv target_dir)
         (inl {| returncode := exit_code p; stdout := out; stderr := err |});
     Run (merge_argv target_dir)
         (inl {| returncode := exit_code p'; stdout := out'; stderr := err' |});
     Log ERROR ("Failed to update " ++ name repo ++ " in " ++ backup_dir
                  ++ ": " ++ out')].
Proof.
  intros target_dir Hthere Hfetch Hrc Hout Herr Hmerge Hrc' Hout' Herr' r.
  subst r target_dir.
  unfold_script. rewrite Hthere. cbv beta iota. rewrite Hfetch.
  cbn [completed]. rewrite Hout, Herr. cbv beta iota zeta.
  cbn [returncode stdout]. rewrite Hrc. cbv beta iota. rewrite Hmerge.
  cbn [completed]. rewrite Hout', Herr'. cbv beta iota zeta.
  cbn [returncode stdout].
  apply Z.eqb_neq in Hrc'. rewrite Hrc'.
  repeat split.
Qed.

(** X5.  [clone_or_update_repository] raises exactly what it has no clause
    for.  When it returns, every command it started either finished or
    raised [CalledProcessError]; when it raises, the exception is not a
    [CalledProcessError] and comes from the last command started, after
    which nothing is logged. *)
Theorem sync_raises_what_it_cannot_catch self repo (backup_dir : string) env :
  let r := clone_or_update_repository self repo backup_dir env in
  match outcome r with
  | inl _ => nothing_uncaught (emitted r) = true
  | inr e =>
      returned_or_caught (inr e) = false /\
      exists argv, last (emitted r) (Print "") = Run argv (inr e)
  end.
Proof.
  intro r. subst r. every_course;
    first [ reflexivity | split; [reflexivity | eexists; reflexivity] ].
Qed.

(** *** Target directories *)

(** X6.  Two repositories are given the same target directory exactly when
    they have the same name and the same visibility, whoever owns them and
    whatever their URLs (for names that do not begin with the path
    separator). *)
Theorem targets_collide_iff (repo repo' : Repository) :
  PyStr.startswith_sep (name repo) = false ->
  PyStr.startswith_sep (name repo') = false ->
  (target_dir_of repo (backup_dir_of repo)
     = target_dir_of repo' (backup_dir_of repo')
   <-> name repo = name repo' /\ private repo = private repo').
Proof.
  intros Hrel Hrel'. unfold target_dir_of.
  rewrite !PyStrFacts.path_join_relative;
    try assumption;
    try (unfold backup_dir_of;
         match goal with |- context [private ?r] => now destruct (private r) end).
  unfold backup_dir_of.
  destruct (private repo), (private repo'); cbn [negb]; split;
    try (intros [Hname Hvis]; first [discriminate Hvis | now rewrite Hname]);
    intro H; cbn in H;
    first [ discriminate H | injection H as H; now split ].
Qed.

(** *** The loop once more *)

Lemma for_each_nothing {A X} (g : event -> list X) (body : A -> M Env unit) :
  (forall x env, flat_map g (emitted (body x env)) = []) ->
  forall xs env, flat_map g (emitted (for_each xs body env)) = [].
Proof.
  intros Hbody xs. induction xs as [|x xs IH]; intro env; [reflexivity|].
  rewrite for_each_cons.
  destruct (outcome (body x env)); cbn [emitted]; [|apply Hbody].
  now rewrite flat_map_app, Hbody, IH.
Qed.

Lemma for_each_in {A X} (g : event -> list X) (P : A -> X -> Prop)
    (body : A -> M Env unit) :
  (forall x env a, In a (flat_map g (emitted (body x env))) -> P x a) ->
  forall xs env a,
    In a (flat_map g (emitted (for_each xs body env))) ->
    exists x, In x xs /\ P x a.
Proof.
  intros Hbody xs. induction xs as [|x xs IH]; intros env a Hin; [destruct Hin|].
  rewrite for_each_cons in Hin.
  destruct (outcome (body x env)); cbn [emitted] in Hin.
  - rewrite flat_map_app in Hin. apply in_app_or in Hin as [Hin|Hin].
    + exists x. split; [now left | eauto].
    + destruct (IH _ _ Hin) as [y [Hy HP]]. exists y. split; [now right | exact HP].
  - exists x. split; [now left | eauto].
Qed.

Lemma for_each_same_length {A X Y} (g : event -> list X) (h : event -> list Y)
    (body : A -> M Env unit) :
  (forall x env, length (flat_map g (emitted (body x env)))
                 = length (flat_map h (emitted (body x env)))) ->
  forall xs env, length (flat_map g (emitted (for_each xs body env)))
                 = length (flat_map h (emitted (for_each xs body env))).
Proof.
  intros Hbody xs. induction xs as [|x xs IH]; intro env; [reflexivity|].
  rewrite for_each_cons.
  destruct (outcome (body x env)); cbn [emitted]; [|apply Hbody].
  rewrite !flat_map_app, !length_app. now rewrite Hbody, IH.
Qed.

Lemma backup_one_slept self repo env :
  slept (emitted (backup_one self repo env))
    = if positive (rate_limit_seconds self)
      then match outcome (backup_one self repo env) with
           | inl _ => [rate_limit_seconds self]
           | inr _ => []
           end
      else [].
Proof. every_course; reflexivity. Qed.

Lemma backup_one_prints_nothing self repo env :
  printed (emitted (backup_one self repo env)) = [] /\
  prompts (emitted (backup_one self repo env)) = [].
Proof. every_course; split; reflexivity. Qed.

Lemma backup_one_commands self repo env (argv : list string) :
  In argv (runs (emitted (backup_one self repo env))) ->
  In argv (git_commands_of repo).
Proof.
  unfold git_commands_of. every_course; intro Hin;
    cbn [runs flat_map app In] in Hin; cbn [In];
    repeat match goal with
           | H : _ \/ _ |- _ => destruct H
           | H : False |- _ => destruct H
           end;
    subst; tauto.
Qed.

Lemma backup_one_error_records self repo env :
  length (error_records (emitted (backup_one self repo env)))
    = length (caught_failures (emitted (backup_one self repo env))).
Proof.
  every_course; cbn [error_records caught_failures flat_map app length];
    repeat match goal with H : (_ =? _)%Z = _ |- _ => rewrite H end;
    reflexivity.
Qed.

Lemma failed_listing_is_quiet self (e : exn) (reply : string) env :
  let r := backup_repositories self (inr e) reply env in
  runs (emitted r) = [] /\ printed (emitted r) = [] /\ prompts (emitted r) = [].
Proof.
  cbv beta iota zeta delta
    [backup_repositories get_repositories try_except bind ret raise
     logging_error sys_exit emit outcome final emitted].
  destruct e; try destruct Github_has_GithubException; repeat split.
Qed.

(** *** backup_repositories *)

(** X7.  The delay is taken after every repository, the last one included:
    a confirmed run that reaches its end sleeps once per repository when
    [rate_limit_seconds] is positive, and a run never sleeps when it is zero
    or negative. *)
Theorem sleeps_after_every_repository self (repos : list Repository)
    (reply : string) env :
  In reply yes_spellings ->
  let r := backup_repositories self (inl repos) reply env in
  let rate := rate_limit_seconds self in
  (positive rate = false -> slept (emitted r) = []) /\
  (positive rate = true -> outcome r = inl tt ->
   slept (emitted r) = repeat rate (length repos)) /\
  (length (slept (emitted r)) <= length repos)%nat.
Proof.
  intros Hyes r rate. subst r.
  rewrite backup_repositories_eq, (yes_confirms Hyes).
  cbn [outcome emitted]. unfold slept at 1 2 3.
  rewrite flat_map_app, announced_silent by reflexivity. cbn [app].
  set (listed := sorted updated_at true repos).
  assert (Hlen : length listed = length repos).
  { symmetry. apply Permutation_length.
    apply (proj1 (sorted_reverse_spec updated_at repos)). }
  destruct (positive rate) eqn:Hpos.
  - destruct (for_each_prefix
                (fun ev => match ev with Sleep s => [s] | _ => [] end)
                (fun _ : Repository => rate) (backup_one self)) with
      (xs := listed) (env := env) as [[k Hk] Hall].
    { intros repo env'.
      pose proof (backup_one_slept self repo env') as Hs.
      unfold slept in Hs. fold rate in Hs. rewrite Hpos in Hs.
      destruct (outcome (backup_one self repo env')) as [u|e];
        [left; exact Hs | right; split; [exact Hs | now exists e]]. }
    repeat split.
    + discriminate.
    + intros _ Hout. rewrite (Hall Hout), <- Hlen.
      clear. induction listed as [|x l IH]; [reflexivity|].
      cbn [map length repeat]. now rewrite IH.
    + rewrite Hk, length_firstn, length_map, Hlen. apply Nat.le_min_r.
  - assert (Hnone : flat_map
                      (fun ev => match ev with Sleep s => [s] | _ => [] end)
                      (emitted (for_each listed (backup_one self) env)) = []).
    { apply for_each_nothing. intros repo env'.
      pose proof (backup_one_slept self repo env') as Hs.
      unfold slept in Hs. fold rate in Hs. now rewrite Hpos in Hs. }
    rewrite Hnone. repeat split; [discriminate | apply Nat.le_0_l].
Qed.

(** X8.  Whatever the listing, the reply and the machine, the only commands
    the script starts are the clone, fetch, merge and fsck commands of
    repositories that were listed, each on the target directory of its
    repository. *)
Theorem only_git_on_listed_targets self (listing : list Repository + exn)
    (reply : string) env (argv : list string) :
  In argv (runs (emitted (backup_repositories self listing reply env))) ->
  exists repos repo,
    listing = inl repos /\ In repo repos /\ In argv (git_commands_of repo).
Proof.
  destruct listing as [repos|e]; intro Hin.
  - rewrite backup_repositories_eq in Hin. cbn [emitted] in Hin.
    unfold runs in Hin.
    rewrite flat_map_app, announced_silent in Hin by reflexivity.
    cbn [app] in Hin.
    destruct (String.eqb (PyStr.lower reply) "yes").
    + apply (for_each_in
               (fun ev => match ev with Run a _ => [a] | _ => [] end)
               (fun repo a => In a (git_commands_of repo))
               (backup_one self)) in Hin.
      * destruct Hin as [repo [Hrepo Hcmd]].
        exists repos, repo. repeat split; [|exact Hcmd].
        apply (Permutation_in _
                 (Permutation_sym (proj1 (sorted_reverse_spec updated_at repos)))).
        exact Hrepo.
      * intros repo env' a. apply backup_one_commands.
    + destruct Hin.
  - destruct (failed_listing_is_quiet self e reply env) as [Hruns _].
    cbv zeta in Hruns. rewrite Hruns in Hin. destruct Hin.
Qed.

(** X9.  In every run over a listing, whatever the machine does, there are
    as many ERROR records as commands that ended in [CalledProcessError]:
    no such failure goes unlogged, and the loop logs no error of its own. *)
Theorem error_records_match_failures self (repos : list Repository)
    (reply : string) env :
  let r := backup_repositories self (inl repos) reply env in
  length (error_records (emitted r)) = length (caught_failures (emitted r)).
Proof.
  intro r. subst r. rewrite backup_repositories_eq. cbn [emitted].
  unfold error_records, caught_failures.
  rewrite !flat_map_app, !announced_silent by reflexivity. cbn [app].
  destruct (String.eqb (PyStr.lower reply) "yes"); [|reflexivity].
  apply (for_each_same_length
           (fun ev => match ev with Log ERROR msg => [msg] | _ => [] end)).
  intros repo env'. apply backup_one_error_records.
Qed.



(** X11.  When [os.makedirs] raises, nothing catches it: the loop ends with
    that exception before the target directory is looked at, no command is
    started for the repository, and the repositories after it are not
    reached. *)
Theorem makedirs_failure_ends_the_run self repo (rest : list Repository) env
    (e : exn) (env1 : Env) :
  makedirs env (backup_dir_of repo) = (Some e, env1) ->
  let r := for_each (repo :: rest) (backup_one self) env in
  outcome r = inr e /\ final r = env1 /\
  emitted r = [Makedirs (backup_dir_of repo) (Some e)].
Proof.
  intros Hmk r. subst r. rewrite for_each_cons.
  assert (Hone : backup_one self repo env
                 = mkRes (inr e) env1 [Makedirs (backup_dir_of repo) (Some e)]).
  { unfold_script. now rewrite Hmk. }
  rewrite Hone. cbn [outcome final emitted]. repeat split.
Qed.

(** X12.  A confirmed run over an empty listing prints the header, asks,
    and returns without touching the machine. *)
Theorem empty_listing_does_nothing self (reply : string) env :
  In reply yes_spellings ->
  let r := backup_repositories self (inl []) reply env in
  outcome r = inl tt /\ final r = env /\
  emitted r = [Print "Repositories:"; Input confirm_prompt reply].
Proof.
  intros Hyes r. subst r.
  rewrite backup_repositories_eq, (yes_confirms Hyes). repeat split.
Qed.

(** *** display_repositories *)

(** X13.  [display_repositories] prints the header and then one line per
    repository, in the order given; a line begins with "Private: " exactly
    for a private repository; it never raises and leaves the machine as it
    is. *)
Theorem display_prints_one_line_each self (repos : list Repository) env :
  let r := display_repositories self repos env in
  outcome r = inl tt /\ final r = env /\
  printed (emitted r) = "Repositories:" :: map display_line repos /\
  length (emitted r) = S (length repos) /\
  (forall repo, String.prefix "Private: " (display_line repo) = private repo).
Proof.
  intro r. subst r. rewrite display_repositories_prints.
  cbn [outcome final emitted]. repeat split.
  - cbn [printed flat_map app]. f_equal.
    induction repos as [|x l IH]; [reflexivity|].
    cbn [map flat_map app]. f_equal. exact IH.
  - cbn [length]. now rewrite length_map.
  - intro repo. unfold display_line. destruct (private repo); [|reflexivity].
    apply PyStrFacts.prefix_spec. eexists. reflexivity.
Qed.

(** *** The main block *)

(** X14.  A delay argument that [int] cannot read ends the script with
    [ValueError] and exit status 1 before anything is listed, printed or
    asked. *)
Theorem unreadable_delay_ends_the_script (argv : list string)
    (listing : list Repository + exn) (reply : string) env :
  (3 <= length argv)%nat ->
  int_of_str (nth 2 argv "") = None ->
  let r := main argv listing reply env in
  exit_status r = 1%Z /\ emitted r = [] /\ final r = env /\
  exists msg, outcome r = inr (ValueError msg).
Proof.
  intros Hlen Hint r. subst r. unfold main.
  assert (Hlt : (length argv <? 2)%nat = false) by (apply Nat.ltb_ge; lia).
  apply Nat.leb_le in Hlen. rewrite Hlt, Hlen, Hint.
  repeat split. eexists. reflexivity.
Qed.


End Further.

(** ** The further theorems at work *)

Lemma listing_ignores_service_order_witness :
  outcome (get_repositories (py := sample_runtime) no_delay
             (inl [beta; alpha]) ([] : list string))
    = outcome (get_repositories (py := sample_runtime) no_delay
                 (inl [alpha; beta]) ([] : list string)).
Proof.
  apply (listing_ignores_service_order (py := sample_runtime) no_delay
           (repos := [beta; alpha]) (repos' := [alpha; beta])).
  - apply perm_swap.
  - simpl. repeat constructor; simpl; intuition discriminate.
Defined.

Lemma failed_clone_is_still_verified_witness :
  let r := clone_or_update_repository (os := Machine true clone_fails)
             no_delay beta "public_repos" [] in
  outcome r = inl tt /\
  runs (emitted r)
    = [clone_argv "https://github.com/octocat/beta.git" "public_repos/beta";
       fsck_argv "public_repos/beta"].
Proof.
  destruct (failed_clone_is_still_verified (os := Machine true clone_fails)
              no_delay beta "public_repos" []
              (p := {| exit_code := 128;
                       stdout_bytes := "fatal: repository not found";
                       stderr_bytes := "" |})
              (out := "fatal: repository not found") (err := "")
              (env1 := []))
    as (Htrace & _ & Hout & _);
    [reflexivity | reflexivity | simpl; lia | reflexivity | reflexivity |].
  intro r. split; [exact Hout|].
  subst r. rewrite Htrace. reflexivity.
Defined.

Lemma failed_merge_is_logged_witness :
  let r := clone_or_update_repository (os := Machine true merge_fails)
             no_delay beta "public_repos" ["public_repos/beta"] in
  outcome r = inl tt /\
  error_records (emitted r)
    = ["Failed to update beta in public_repos: fatal: Not possible to fast-forward"].
Proof.
  destruct (failed_merge_is_logged (os := Machine true merge_fails)
              no_delay beta "public_repos" ["public_repos/beta"]
              (p := {| exit_code := 0; stdout_bytes := ""; stderr_bytes := "" |})
              (p' := {| exit_code := 1;
                        stdout_bytes := "fatal: Not possible to fast-forward";
                        stderr_bytes := "" |})
              (out := "") (err := "")
              (out' := "fatal: Not possible to fast-forward") (err' := "")
              (env1 := ["public_repos/beta"]) (env2 := ["public_repos/beta"]))
    as (Hout & _ & Htrace);
    [reflexivity | reflexivity | reflexivity | reflexivity | reflexivity
    | reflexivity | simpl; lia | reflexivity | reflexivity |].
  intro r. split; [exact Hout|].
  subst r. rewrite Htrace. reflexivity.
Defined.

Lemma targets_collide_iff_witness :
  target_dir_of beta (backup_dir_of beta)
    = target_dir_of delta (backup_dir_of delta).
Proof.
  apply (targets_collide_iff beta delta); [reflexivity | reflexivity |].
  split; reflexivity.
Defined.

Lemma sleeps_after_every_repository_witness :
  slept (emitted (backup_repositories (os := Machine true all_fine)
                    (py := sample_runtime) default_delay
                    (inl [beta; alpha]) "yes" []))
    = [DefaultSeconds; DefaultSeconds] /\
  slept (emitted (backup_repositories (os := Machine true all_fine)
                    (py := sample_runtime) no_delay
                    (inl [beta; alpha]) "yes" [])) = [].
Proof.
  destruct (sleeps_after_every_repository (os := Machine true all_fine)
              (py := sample_runtime) default_delay [beta; alpha]
              (reply := "yes") []) as (_ & Hall & _); [simpl; tauto|].
  destruct (sleeps_after_every_repository (os := Machine true all_fine)
              (py := sample_runtime) no_delay [beta; alpha]
              (reply := "yes") []) as (Hnone & _ & _); [simpl; tauto|].
  split; [exact (Hall eq_refl eq_refl) | exact (Hnone eq_refl)].
Defined.

Lemma only_git_on_listed_targets_witness :
  exists repos repo,
    (inl [beta; alpha] : list Repository + exn) = inl repos /\
    In repo repos /\
    In (fsck_argv "private_repos/alpha") (git_commands_of repo).
Proof.
  apply (only_git_on_listed_targets (os := Machine true all_fine)
           (py := sample_runtime) no_delay (inl [beta; alpha]) "yes" []).
  vm_compute. tauto.
Defined.


Lemma makedirs_failure_ends_the_run_witness :
  let r := for_each [beta; alpha] (backup_one (os := ReadOnly) no_delay) [] in
  outcome r = inr (OSError "Read-only file system") /\
  final r = [] /\
  emitted r = [Makedirs "public_repos" (Some (OSError "Read-only file system"))].
Proof.
  apply (makedirs_failure_ends_the_run (os := ReadOnly) no_delay beta [alpha] []).
  reflexivity.
Defined.

Lemma empty_listing_does_nothing_witness :
  let r := backup_repositories (os := Machine true all_fine)
             (py := sample_runtime) no_delay (inl []) "Yes" [] in
  outcome r = inl tt /\ final r = [] /\
  emitted r = [Print "Repositories:"; Input confirm_prompt "Yes"].
Proof.
  apply (empty_listing_does_nothing (os := Machine true all_fine)
           (py := sample_runtime) no_delay (reply := "Yes") []).
  simpl. tauto.
Defined.

Lemma unreadable_delay_ends_the_script_witness :
  exit_status (main (os := Machine true all_fine) (py := sample_runtime)
                 ["backup_github_repos.py"; "token"; "soon"]
                 (inl [beta]) "yes" []) = 1%Z.
Proof.
  destruct (unreadable_delay_ends_the_script (os := Machine true all_fine)
              (py := sample_runtime)
              ["backup_github_repos.py"; "token"; "soon"]
              (inl [beta]) "yes" []) as (Hexit & _);
    [simpl; lia | reflexivity |].
  exact Hexit.
Defined.

